(** * errs: the structured error wrapper of common-go-errors

    A shallow embedding of [errs.go] and the properties of its operations.

    Go values are modelled as follows.
    - A value of interface type [error] is [option dyn]: [None] is the nil
      interface, [Some e] holds a dynamic value [e].
    - A dynamic error value is either an [ErrorWrapper] (the struct of this
      package, stored by value) or a foreign error: any other type, of
      which the package sees only the rendered string and the optional
      [Unwrap] result.  Foreign errors with a custom [As] method or with
      [Unwrap() []error] are outside the model.
    - [map[string]string] is a reference type: a payload is [option loc],
      nil or the address of a map held in a store of maps ([gmap loc
      (gmap string string)]), so that two structs can share one map.
    - [int] is [Z]; no arithmetic is done on status codes.
    - A panic (a method call on the nil interface) is the [None] of an
      [option] result.  All values of this model render and unwrap; the
      values whose own methods panic, such as a nil pointer to a wrapper
      held in a non-nil interface, are added in [Pointers]. *)

From Equations Require Import Equations.
From Equations.Prop Require Import Logic.
From stdpp Require Import base option list gmap strings pretty.

Open Scope Z_scope.

(** ** Data model *)

(** Addresses of payload maps. *)
Abbreviation loc := positive (only parsing).

(** The store of the maps allocated so far. *)
Abbreviation maps := (gmap positive (gmap string string)) (only parsing).

(** [type ErrorWrapper struct { Action; Message; Payload; Code; Err }],
    over the type [E] of the non-nil values an [error] interface holds. *)
Record ErrorWrapperOf (E : Type) : Type := MkErrorWrapper {
  Action : string;
  Message : string;
  Payload : option loc;
  Code : Z;
  Err : option E
}.
Arguments MkErrorWrapper {E} _ _ _ _ _.
Arguments Action {E} _.
Arguments Message {E} _.
Arguments Payload {E} _.
Arguments Code {E} _.
Arguments Err {E} _.

(** The dynamic values of interface type [error]. *)
#[warnings="-register-all"]
Inductive dyn : Type :=
  | Foreign (text : string) (unwrap : option dyn)
  | Wrapper (ew : ErrorWrapperOf dyn).

Abbreviation error := (option dyn) (only parsing).
Abbreviation ErrorWrapper := (ErrorWrapperOf dyn) (only parsing).

(** The constants of [net/http] the package uses. *)
Definition StatusBadRequest : Z := 400.
Definition StatusUnauthorized : Z := 401.
Definition StatusPaymentRequired : Z := 402.
Definition StatusForbidden : Z := 403.
Definition StatusNotFound : Z := 404.
Definition StatusUnprocessableEntity : Z := 422.
Definition StatusInternalServerError : Z := 500.
Definition StatusNotImplemented : Z := 501.
Definition StatusBadGateway : Z := 502.
Definition StatusServiceUnavailable : Z := 503.
Definition StatusGatewayTimeout : Z := 504.

(** [fmt.Sprint] of an [int]: its decimal digits, with a leading minus
    sign when negative. *)
Definition Sprint (code : Z) : string := pretty code.

(** ** String rendering and unwrapping *)

(** [e.Error()] for a non-nil dynamic value [e].  For a wrapper this is
    the body of [ErrorWrapper.Error]; the call [err.Err.Error()] on the
    interface field panics when the field is nil, which is the [None] of
    [call]. *)
Fixpoint dyn_Error (e : dyn) : option string :=
  match e with
  | Foreign text _ => Some text
  | Wrapper ew =>
      let call (i : error) : option string :=
        match i with
        | None => None
        | Some c => dyn_Error c
        end in
      match Err ew with
      | Some _ => call (Err ew)
      | None => Some (Message ew)
      end
  end.

(** A method call [i.Error()] on an interface value; nil panics. *)
Definition call_Error (i : error) : option string :=
  match i with
  | None => None
  | Some c => dyn_Error c
  end.

(** [func (err ErrorWrapper) Error() string] *)
Definition Error (err : ErrorWrapper) : option string :=
  match Err err with
  | Some _ => call_Error (Err err)
  | None => Some (Message err)
  end.

(** [func (err ErrorWrapper) Unwrap() error] *)
Definition Unwrap (err : ErrorWrapper) : error := Err err.

(** What [errors.Unwrap] sees of any dynamic value. *)
Definition cause (e : dyn) : error :=
  match e with
  | Foreign _ unwrap => unwrap
  | Wrapper ew => Unwrap ew
  end.

(** The unwrap chain of an interface value, outermost first. *)
Fixpoint chain_of (e : dyn) : list dyn :=
  e :: match e with
       | Foreign _ (Some c) => chain_of c
       | Foreign _ None => []
       | Wrapper ew =>
           match Err ew with
           | Some c => chain_of c
           | None => []
           end
       end.

Definition chain (i : error) : list dyn :=
  match i with
  | None => []
  | Some e => chain_of e
  end.

(** The wrappers of a chain, in chain order. *)
Definition as_wrapper (e : dyn) : option ErrorWrapper :=
  match e with
  | Wrapper ew => Some ew
  | Foreign _ _ => None
  end.

Definition wrappers (l : list dyn) : list ErrorWrapper :=
  omap as_wrapper l.

(** ** [errors.As] with a target of type [*ErrorWrapper] *)

(** The loop of [errors.As] from a non-nil value: the first value of the
    chain whose dynamic type is [ErrorWrapper] is stored in the target. *)
Fixpoint errors_As_from (e : dyn) : option ErrorWrapper :=
  match e with
  | Wrapper ew => Some ew
  | Foreign _ (Some c) => errors_As_from c
  | Foreign _ None => None
  end.

(** [errors.As(i, &ew)]: [Some ew] when it returns true, with the value
    stored in the target; [None] when it returns false. *)
Definition errors_As (i : error) : option ErrorWrapper :=
  match i with
  | None => None
  | Some e => errors_As_from e
  end.

(** ** [DecodeError] *)

(** [func DecodeError(err error) ErrorWrapper]; [None] is the panic of
    [err.Error()] on the nil interface. *)
Definition DecodeError (err : error) : option ErrorWrapper :=
  match errors_As err with
  | Some ew => Some ew
  | None =>
      match call_Error err with
      | Some text =>
          Some {| Action := "generic";
                  Message := text;
                  Code := StatusInternalServerError;
                  Err := err;
                  Payload := None |}
      | None => None
      end
  end.

(** ** [Dig] *)

(** [func (err ErrorWrapper) Dig() ErrorWrapper].  The recursive call is
    on the wrapper [errors.As] found below [err], which lies strictly
    deeper in the chain of [err]: the chain that is left gets shorter. *)
Equations? Dig (err : ErrorWrapper) : ErrorWrapper
  by wf (length (chain (Err err))) lt :=
  Dig err with inspect (errors_As (Err err)) := {
    | exist _ (Some ew) _ => Dig ew
    | exist _ None _ => err }.
Proof.
  clear Dig. rename e into Has.
  destruct (Err err) as [c|]; [|discriminate].
  simpl in *.
  remember (length (chain_of c)) as n eqn:Hn.
  revert c ew Has Hn.
  induction (lt_wf n) as [n _ IH].
  intros [text [c|]|w] ew Has Hn; simpl in *.
  - subst n.
    specialize (IH (length (chain_of c)) (Nat.lt_succ_diag_r _) c ew Has eq_refl).
    lia.
  - discriminate.
  - injection Has as ->. subst n. unfold chain. destruct (Err ew); simpl; lia.
Qed.

(** ** Payload mutation *)

(** The struct with its [Payload] field assigned. *)
Definition set_Payload (err : ErrorWrapper) (p : option loc) : ErrorWrapper :=
  {| Action := Action err;
     Message := Message err;
     Payload := p;
     Code := Code err;
     Err := Err err |}.

(** A map literal or [make]: a new map at an address not in use. *)
Definition alloc (m : gmap string string) (h : maps) : loc * maps :=
  let l := fresh (dom h) in (l, <[l := m]> h).

(** The entries a map value holds; reading the nil map gives none. *)
Definition entries (h : maps) (p : option loc) : gmap string string :=
  match p with
  | None => ∅
  | Some l => h !!! l
  end.

(** [for k, v := range values { m[k] = v }] on the contents of [m]. *)
Definition assign_all (values m : gmap string string) : gmap string string :=
  map_fold (λ k v acc, <[k := v]> acc) m values.

(** [func (err *ErrorWrapper) AddPayloadValue(key string, value string)]:
    the struct behind the receiver and the store, after the call. *)
Definition AddPayloadValue (key value : string) (err : ErrorWrapper) (h : maps)
  : ErrorWrapper * maps :=
  match Payload err with
  | None =>
      let '(l, h') := alloc {[key := value]} h in
      (set_Payload err (Some l), h')
  | Some l => (err, <[l := <[key := value]> (h !!! l)]> h)
  end.

(** [func (err *ErrorWrapper) AddPayloadValues(values map[string]string)] *)
Definition AddPayloadValues (values : option loc) (err : ErrorWrapper) (h : maps)
  : ErrorWrapper * maps :=
  match Payload err with
  | None => (set_Payload err values, h)
  | Some l => (err, <[l := assign_all (entries h values) (h !!! l)]> h)
  end.

(** [func (err ErrorWrapper) AsJSONResponse() map[string]string]: the
    entries of the map the literal builds. *)
Definition AsJSONResponse (err : ErrorWrapper) : gmap string string :=
  {[ "action" := Action err; "message" := Message err ]}.

(** ** Constructors *)

(** Every constructor returns the wrapper as an [error] together with the
    store after the call. *)
Abbreviation constructor :=
  (string → string → error → option loc → maps → error * maps) (only parsing).

(** [func NewErrorWrapper(action, message, code, err, payload) error] *)
Definition NewErrorWrapper (action message : string) (code : Z)
    (err : error) (payload : option loc) (h : maps) : error * maps :=
  let ew := {| Action := action;
               Message := message;
               Code := code;
               Err := err;
               Payload := payload |} in
  let '(values, h1) :=
    alloc {[ "code" := Sprint code; "human_message" := message ]} h in
  let '(ew', h2) := AddPayloadValues (Some values) ew h1 in
  (Some (Wrapper ew'), h2).

(** [func NewBadRequestError(action, message, err, payload) error] *)
Definition NewBadRequestError (action message : string)
    (err : error) (payload : option loc) (h : maps) : error * maps :=
  let code := StatusBadRequest in
  let ew := {| Action := action;
               Message := message;
               Code := code;
               Err := err;
               Payload := payload |} in
  let '(values, h1) :=
    alloc {[ "code" := Sprint code; "human_message" := message ]} h in
  let '(ew', h2) := AddPayloadValues (Some values) ew h1 in
  (Some (Wrapper ew'), h2).

(** [func NewUnauthorizedError(action, message, err, payload) error] *)
Definition NewUnauthorizedError (action message : string)
    (err : error) (payload : option loc) (h : maps) : error * maps :=
  let code := StatusUnauthorized in
  let ew := {| Action := action;
               Message := message;
               Code := code;
               Err := err;
               Payload := payload |} in
  let '(values, h1) :=
    alloc {[ "code" := Sprint code; "human_message" := message ]} h in
  let '(ew', h2) := AddPayloadValues (Some values) ew h1 in
  (Some (Wrapper ew'), h2).

(** [func NewPaymentRequiredError(action, message, err, payload) error] *)
Definition NewPaymentRequiredError (action message : string)
    (err : error) (payload : option loc) (h : maps) : error * maps :=
  let code := StatusPaymentRequired in
  let ew := {| Action := action;
               Message := message;
               Code := code;
               Err := err;
               Payload := payload |} in
  let '(values, h1) :=
    alloc {[ "code" := Sprint code; "human_message" := message ]} h in
  let '(ew', h2) := AddPayloadValues (Some values) ew h1 in
  (Some (Wrapper ew'), h2).

(** [func NewForbiddenError(action, message, err, payload) error] *)
Definition NewForbiddenError (action message : string)
    (err : error) (payload : option loc) (h : maps) : error * maps :=
  let code := StatusForbidden in
  let ew := {| Action := action;
               Message := message;
               Code := code;
               Err := err;
               Payload := payload |} in
  let '(values, h1) :=
    alloc {[ "code" := Sprint code; "human_message" := message ]} h in
  let '(ew', h2) := AddPayloadValues (Some values) ew h1 in
  (Some (Wrapper ew'), h2).

(** [func NewNotFoundError(action, message, err, payload) error] *)
Definition NewNotFoundError (action message : string)
    (err : error) (payload : option loc) (h : maps) : error * maps :=
  let code := StatusNotFound in
  let ew := {| Action := action;
               Message := message;
               Code := code;
               Err := err;
               Payload := payload |} in
  let '(values, h1) :=
    alloc {[ "code" := Sprint code; "human_message" := message ]} h in
  let '(ew', h2) := AddPayloadValues (Some values) ew h1 in
  (Some (Wrapper ew'), h2).

(** [func NewUnprocessableEntityError(action, message, err, payload) error] *)
Definition NewUnprocessableEntityError (action message : string)
    (err : error) (payload : option loc) (h : maps) : error * maps :=
  let code := StatusUnprocessableEntity in
  let ew := {| Action := action;
               Message := message;
               Code := code;
               Err := err;
               Payload := payload |} in
  let '(values, h1) :=
    alloc {[ "code" := Sprint code; "human_message" := message ]} h in
  let '(ew', h2) := AddPayloadValues (Some values) ew h1 in
  (Some (Wrapper ew'), h2).

(** [func NewInternalServerError(action, message, err, payload) error] *)
Definition NewInternalServerError (action message : string)
    (err : error) (payload : option loc) (h : maps) : error * maps :=
  let code := StatusInternalServerError in
  let ew := {| Action := action;
               Message := message;
               Code := code;
               Err := err;
               Payload := payload |} in
  let '(values, h1) :=
    alloc {[ "code" := Sprint code; "human_message" := message ]} h in
  let '(ew', h2) := AddPayloadValues (Some values) ew h1 in
  (Some (Wrapper ew'), h2).

(** [func NewNotImplementedError(action, message, err, payload) error] *)
Definition NewNotImplementedError (action message : string)
    (err : error) (payload : option loc) (h : maps) : error * maps :=
  let code := StatusNotImplemented in
  let ew := {| Action := action;
               Message := message;
               Code := code;
               Err := err;
               Payload := payload |} in
  let '(values, h1) :=
    alloc {[ "code" := Sprint code; "human_message" := message ]} h in
  let '(ew', h2) := AddPayloadValues (Some values) ew h1 in
  (Some (Wrapper ew'), h2).

(** [func NewBadGatewayError(action, message, err, payload) error] *)
Definition NewBadGatewayError (action message : string)
    (err : error) (payload : option loc) (h : maps) : error * maps :=
  let code := StatusBadGateway in
  let ew := {| Action := action;
               Message := message;
               Code := code;
               Err := err;
               Payload := payload |} in
  let '(values, h1) :=
    alloc {[ "code" := Sprint code; "human_message" := message ]} h in
  let '(ew', h2) := AddPayloadValues (Some values) ew h1 in
  (Some (Wrapper ew'), h2).

(** [func NewServiceUnavailableError(action, message, err, payload) error] *)
Definition NewServiceUnavailableError (action message : string)
    (err : error) (payload : option loc) (h : maps) : error * maps :=
  let code := StatusServiceUnavailable in
  let ew := {| Action := action;
               Message := message;
               Code := code;
               Err := err;
               Payload := payload |} in
  let '(values, h1) :=
    alloc {[ "code" := Sprint code; "human_message" := message ]} h in
  let '(ew', h2) := AddPayloadValues (Some values) ew h1 in
  (Some (Wrapper ew'), h2).

(** [func NewGatewayTimeoutError(action, message, err, payload) error] *)
Definition NewGatewayTimeoutError (action message : string)
    (err : error) (payload : option loc) (h : maps) : error * maps :=
  let code := StatusGatewayTimeout in
  let ew := {| Action := action;
               Message := message;
               Code := code;
               Err := err;
               Payload := payload |} in
  let '(values, h1) :=
    alloc {[ "code" := Sprint code; "human_message" := message ]} h in
  let '(ew', h2) := AddPayloadValues (Some values) ew h1 in
  (Some (Wrapper ew'), h2).

(** The per-status constructors with the status each documents. *)
Definition status_constructors : list (Z * constructor) :=
  [ (400, NewBadRequestError);
    (401, NewUnauthorizedError);
    (402, NewPaymentRequiredError);
    (403, NewForbiddenError);
    (404, NewNotFoundError);
    (422, NewUnprocessableEntityError);
    (500, NewInternalServerError);
    (501, NewNotImplementedError);
    (502, NewBadGatewayError);
    (503, NewServiceUnavailableError);
    (504, NewGatewayTimeoutError) ].

(** The constructors of the package, each with the status code it gives
    its result: the generic builder at any code, and the per-status ones. *)
Definition is_constructor (code : Z) (build : constructor) : Prop :=
  build = (λ action message, NewErrorWrapper action message code) ∨
  (code, build) ∈ status_constructors.

(** ** Chains behind references *)

(** The values above are finite trees, so every chain ends.  An error of
    a pointer type can be made to unwrap to itself; to speak about such
    chains, [errors.As] and [Dig] are also given over any type [E] of
    error values with a function that tells what a value is: a wrapper,
    or a foreign error with its text and its [Unwrap] result.  The
    number [n] bounds the calls and loop iterations still allowed; [None]
    means the bound was reached before a result. *)
Inductive shape (E : Type) : Type :=
  | IsWrapper (ew : ErrorWrapperOf E)
  | IsForeign (text : string) (unwrap : option E).
Arguments IsWrapper {E} _.
Arguments IsForeign {E} _ _.

Section Walk.
Context {E : Type} (deref : E → shape E).

(** The loop of [errors.As]; the result [Some None] is [false]. *)
Fixpoint As_steps (n : nat) (i : option E) : option (option (ErrorWrapperOf E)) :=
  match n with
  | O => None
  | S n' =>
      match i with
      | None => Some None
      | Some e =>
          match deref e with
          | IsWrapper ew => Some (Some ew)
          | IsForeign _ unwrap => As_steps n' unwrap
          end
      end
  end.

(** The body of [Dig]. *)
Fixpoint Dig_steps (n : nat) (err : ErrorWrapperOf E) : option (ErrorWrapperOf E) :=
  match n with
  | O => None
  | S n' =>
      match As_steps n' (Err err) with
      | None => None
      | Some (Some ew) => Dig_steps n' ew
      | Some None => Some err
      end
  end.


End Walk.

(** The values of the tree model, seen this way. *)
Definition deref_dyn (e : dyn) : shape dyn :=
  match e with
  | Foreign text unwrap => IsForeign text unwrap
  | Wrapper ew => IsWrapper ew
  end.


(** ** Sample values *)

Module Samples.
Definition plain : dyn := Foreign "boom" None.

Definition leaf : ErrorWrapper :=
  {| Action := "load"; Message := "not found"; Payload := None;
     Code := StatusNotFound; Err := None |}.

Definition over_plain : ErrorWrapper :=
  {| Action := "read"; Message := "cannot read"; Payload := None;
     Code := StatusForbidden; Err := Some plain |}.

Definition middle : ErrorWrapper :=
  {| Action := "fetch"; Message := "fetch failed"; Payload := None;
     Code := StatusBadGateway; Err := Some (Wrapper leaf) |}.

Definition outer : ErrorWrapper :=
  {| Action := "serve"; Message := "request failed"; Payload := None;
     Code := StatusInternalServerError; Err := Some (Wrapper middle) |}.

(** [fmt.Errorf("context: %w", leaf)]: a foreign error that unwraps to
    a wrapper. *)
Definition annotated : dyn := Foreign "context: not found" (Some (Wrapper leaf)).

Definition over_annotated : ErrorWrapper :=
  {| Action := "serve"; Message := "request failed"; Payload := None;
     Code := StatusInternalServerError; Err := Some annotated |}.

(** A store with one map at address 1, holding an entry for ["code"]. *)
Definition store1 : maps := {[ 1%positive := {[ "code" := "teapot"; "trace" := "abc" ]} ]}.

Definition with_payload : ErrorWrapper :=
  {| Action := "load"; Message := "not found"; Payload := Some 1%positive;
     Code := StatusNotFound; Err := None |}.

End Samples.

(** ** Values whose methods panic *)

(** The tree model gives every non-nil value a string and an [Unwrap]
    result.  A non-nil interface can also hold a value whose methods
    panic: a nil [*ErrorWrapper], for one, has the methods of
    [ErrorWrapper], and calling [Error] or [Unwrap] through the nil
    pointer panics.  The model below adds such values.  A value that is
    not an [ErrorWrapper] is given by what its two methods do: [Error]
    returns a string or panics ([None]); [Unwrap] panics ([None]), is
    missing or returns nil ([Some None]), or returns an error.  The
    functions are those of the tree model, with the panics passed on. *)
Module Pointers.

#[warnings="-register-all"]
Inductive held : Type :=
  | Other (rendered : option string) (unwrapped : option (option held))
  | Wrapped (ew : ErrorWrapperOf held).

(** A nil [*ErrorWrapper] held in an interface. *)
Definition nil_wrapper_pointer : held := Other None None.

(** [e.Error()] for a non-nil dynamic value; [None] is a panic. *)
Fixpoint dyn_Error (e : held) : option string :=
  match e with
  | Other rendered _ => rendered
  | Wrapped ew =>
      let call (i : option held) : option string :=
        match i with
        | None => None
        | Some c => dyn_Error c
        end in
      match Err ew with
      | Some _ => call (Err ew)
      | None => Some (Message ew)
      end
  end.

(** A method call [i.Error()] on an interface value; nil panics. *)
Definition call_Error (i : option held) : option string :=
  match i with
  | None => None
  | Some c => dyn_Error c
  end.

(** [func (err ErrorWrapper) Error() string] *)
Definition Error (err : ErrorWrapperOf held) : option string :=
  match Err err with
  | Some _ => call_Error (Err err)
  | None => Some (Message err)
  end.

(** The unwrap chain, outermost first; it ends where [Unwrap] is
    missing, returns nil or panics. *)
Fixpoint chain_of (e : held) : list held :=
  e :: match e with
       | Other _ (Some (Some c)) => chain_of c
       | Other _ _ => []
       | Wrapped ew =>
           match Err ew with
           | Some c => chain_of c
           | None => []
           end
       end.

Definition chain (i : option held) : list held :=
  match i with
  | None => []
  | Some e => chain_of e
  end.

Definition as_wrapper (e : held) : option (ErrorWrapperOf held) :=
  match e with
  | Wrapped ew => Some ew
  | Other _ _ => None
  end.

Definition wrappers (l : list held) : list (ErrorWrapperOf held) :=
  omap as_wrapper l.

(** What [Error] does on a value that is not a wrapper. *)
Definition rendered_of (e : held) : option (option string) :=
  match e with
  | Other rendered _ => Some rendered
  | Wrapped _ => None
  end.

(** [Unwrap] panics on this value. *)
Definition Unwrap_panics (e : held) : bool :=
  match e with
  | Other _ None => true
  | Other _ (Some _) => false
  | Wrapped _ => false
  end.

(** The loop of [errors.As] from a non-nil value: [None] is a panic,
    [Some None] is [false], [Some (Some ew)] is [true] with [ew] stored
    in the target. *)
Fixpoint errors_As_from (e : held) : option (option (ErrorWrapperOf held)) :=
  match e with
  | Wrapped ew => Some (Some ew)
  | Other _ None => None
  | Other _ (Some None) => Some None
  | Other _ (Some (Some c)) => errors_As_from c
  end.

Definition errors_As (i : option held) : option (option (ErrorWrapperOf held)) :=
  match i with
  | None => Some None
  | Some e => errors_As_from e
  end.

(** [func DecodeError(err error) ErrorWrapper] *)
Definition DecodeError (err : option held) : option (ErrorWrapperOf held) :=
  match errors_As err with
  | None => None
  | Some (Some ew) => Some ew
  | Some None =>
      match call_Error err with
      | Some text =>
          Some {| Action := "generic";
                  Message := text;
                  Code := StatusInternalServerError;
                  Err := err;
                  Payload := None |}
      | None => None
      end
  end.

(** The values of the tree model among these: both methods return. *)
Fixpoint lift (e : dyn) : held :=
  match e with
  | Foreign text unwrap =>
      Other (Some text)
            (Some match unwrap with
                  | Some c => Some (lift c)
                  | None => None
                  end)
  | Wrapper ew =>
      Wrapped {| Action := Action ew;
                 Message := Message ew;
                 Payload := Payload ew;
                 Code := Code ew;
                 Err := match Err ew with
                        | Some c => Some (lift c)
                        | None => None
                        end |}
  end.

Definition lift_wrapper (ew : ErrorWrapperOf dyn) : ErrorWrapperOf held :=
  {| Action := Action ew;
     Message := Message ew;
     Payload := Payload ew;
     Code := Code ew;
     Err := match Err ew with
            | Some c => Some (lift c)
            | None => None
            end |}.

(** A wrapper whose cause is the nil pointer. *)
Definition over_nil_pointer : ErrorWrapperOf held :=
  {| Action := "serve"; Message := "request failed"; Payload := None;
     Code := StatusInternalServerError; Err := Some nil_wrapper_pointer |}.

(** A wrapper over a wrapper over the nil pointer. *)
Definition over_over_nil_pointer : ErrorWrapperOf held :=
  {| Action := "route"; Message := "no route"; Payload := None;
     Code := StatusBadGateway; Err := Some (Wrapped over_nil_pointer) |}.

(** [fmt.Errorf("context: %w", p)] for the nil pointer [p]. *)
Definition annotated_nil_pointer : held :=
  Other (Some "context: <nil>") (Some (Some nil_wrapper_pointer)).
End Pointers.

(** ** Further notions for the properties below *)

(** The text of a foreign error; a wrapper is not one. *)
Definition foreign_text (e : dyn) : option string :=
  match e with
  | Foreign text _ => Some text
  | Wrapper _ => None
  end.

Module Stores.
(** A store with two maps: the payload of [Samples.with_payload] at
    address 1 and a map of the caller at address 2. *)
Definition two : maps :=
  {[ 1%positive := {[ "code" := "teapot"; "trace" := "abc" ]};
     2%positive := {[ "trace" := "xyz"; "user" := "ann" ]} ]}.

(** A store whose map at address 2 has the one entry ["user" ↦ "ann"]. *)
Definition single : maps :=
  {[ 1%positive := {[ "code" := "teapot"; "trace" := "abc" ]};
     2%positive := {[ "user" := "ann" ]} ]}.
End Stores.

(** * Properties *)

(** ** Auxiliary facts *)

(** Induction along the cause of a value. *)
Lemma dyn_cause_ind (P : dyn → Prop) :
  (∀ e, (∀ c, cause e = Some c → P c) → P e) → ∀ e, P e.
Proof.
  intros Hstep. fix IH 1. intros e. apply Hstep.
  destruct e as [text [c|]|[a m p cd [c|]]]; simpl; unfold Unwrap; simpl;
    intros c' Hc; try discriminate; injection Hc as <-; apply IH.
Qed.

Lemma chain_of_unfold e : chain_of e = e :: chain (cause e).
Proof. destruct e as [text [c|]|[a m p cd [c|]]]; reflexivity. Qed.

Lemma dyn_Error_wrapper ew : dyn_Error (Wrapper ew) = Error ew.
Proof. reflexivity. Qed.

Lemma errors_As_from_unfold e :
  errors_As_from e =
    match e with
    | Wrapper ew => Some ew
    | Foreign _ unwrap => errors_As unwrap
    end.
Proof. destruct e as [text [c|]|ew]; reflexivity. Qed.

Lemma Dig_body err :
  Dig err = match errors_As (Err err) with
            | Some ew => Dig ew
            | None => err
            end.
Proof.
  funelim (Dig err);
    match goal with Has : errors_As _ = _ |- _ => rewrite Has end; reflexivity.
Qed.

Lemma wrappers_chain_of e :
  wrappers (chain_of e) =
    match e with
    | Wrapper ew => ew :: wrappers (chain (Err ew))
    | Foreign _ unwrap => wrappers (chain unwrap)
    end.
Proof. rewrite chain_of_unfold. destruct e; reflexivity. Qed.

(** [errors.As] finds the outermost wrapper of the chain. *)
Lemma errors_As_from_head e :
  errors_As_from e = head (wrappers (chain_of e)).
Proof.
  induction e as [e IH] using dyn_cause_ind.
  rewrite errors_As_from_unfold, wrappers_chain_of.
  destruct e as [text [c|]|ew]; simpl; auto.
Qed.

Lemma errors_As_head (i : error) : errors_As i = head (wrappers (chain i)).
Proof. destruct i; [apply errors_As_from_head | reflexivity]. Qed.


(** Below the wrapper [errors.As] finds, the chain has the same wrappers. *)
Lemma wrappers_chain_found (i : error) ew :
  errors_As i = Some ew → wrappers (chain i) = ew :: wrappers (chain (Err ew)).
Proof.
  destruct i as [e|]; [|discriminate]. simpl.
  induction e as [e IH] using dyn_cause_ind.
  rewrite errors_As_from_unfold, wrappers_chain_of.
  destruct e as [text [c|]|ew']; simpl.
  - intros Has. by apply IH.
  - discriminate.
  - by intros [= ->].
Qed.

(** Every value renders: [Error] never reaches the nil interface. *)
Lemma dyn_Error_total e : is_Some (dyn_Error e).
Proof.
  induction e as [e IH] using dyn_cause_ind.
  destruct e as [text u|[a m p cd [c|]]]; simpl; eauto.
Qed.

(** ** DecodeError *)



(** On the nil interface [DecodeError] panics: no error value is there to
    render. *)
Lemma DecodeError_nil : DecodeError None = None.
Proof. reflexivity. Qed.

(** ** Dig *)

(** [Dig] returns the last wrapper of the unwrap chain that starts at the
    receiver. *)
Lemma Dig_last (err : ErrorWrapper) :
  last (wrappers (chain_of (Wrapper err))) = Some (Dig err).
Proof.
  remember (length (wrappers (chain (Err err)))) as n eqn:Hn.
  revert err Hn. induction (lt_wf n) as [n _ IH]. intros err Hn.
  rewrite Dig_body, wrappers_chain_of.
  destruct (errors_As (Err err)) as [ew|] eqn:Has.
  - rewrite (wrappers_chain_found _ _ Has) in *. rewrite last_cons_cons.
    rewrite <- (wrappers_chain_of (Wrapper ew)).
    apply (IH (length (wrappers (chain (Err ew))))); [subst n; simpl; lia | done].
  - rewrite errors_As_head in Has.
    destruct (wrappers (chain (Err err))); [done | discriminate].
Qed.





Example Dig_over_annotated : Dig Samples.over_annotated = Samples.leaf.
Proof. reflexivity. Qed.

(** ** Payload maps *)

(** The loop of [AddPayloadValues] lets the incoming entries win. *)
Lemma assign_all_union (values m : gmap string string) :
  assign_all values m = values ∪ m.
Proof.
  unfold assign_all.
  apply (map_fold_weak_ind (λ r vs, r = vs ∪ m)).
  - by rewrite (left_id_L ∅ (∪)).
  - intros k v vs r _ ->. by rewrite insert_union_l.
Qed.

(** What the generic builder returns, by cases on the payload passed. *)
Lemma NewErrorWrapper_result action message code err payload (h : maps) :
  let values := {[ "code" := Sprint code; "human_message" := message ]} in
  let lv := fresh (dom h) in
  NewErrorWrapper action message code err payload h =
    match payload with
    | None =>
        (Some (Wrapper {| Action := action; Message := message;
                          Payload := Some lv; Code := code; Err := err |}),
         <[lv := values]> h)
    | Some l =>
        (Some (Wrapper {| Action := action; Message := message;
                          Payload := Some l; Code := code; Err := err |}),
         <[l := values ∪ (<[lv := values]> h !!! l)]> (<[lv := values]> h))
    end.
Proof.
  intros values lv. unfold NewErrorWrapper, alloc, AddPayloadValues.
  destruct payload as [l|]; simpl; [|reflexivity].
  rewrite assign_all_union. fold lv. fold values.
  by rewrite lookup_total_insert_eq.
Qed.

(** Each per-status constructor is the generic builder at its code. *)
Lemma status_constructors_generic code (build : constructor) :
  (code, build) ∈ status_constructors →
  build = (λ action message, NewErrorWrapper action message code).
Proof.
  unfold status_constructors. intros Hin.
  repeat (apply elem_of_cons in Hin as [[= -> ->]|Hin]; [reflexivity|]).
  by apply elem_of_nil in Hin.
Qed.

Lemma is_constructor_generic code (build : constructor) :
  is_constructor code build →
  build = (λ action message, NewErrorWrapper action message code).
Proof. intros [->|Hin]; [reflexivity | by apply status_constructors_generic]. Qed.

Example Sprint_404 : Sprint 404 = "404".
Proof. reflexivity. Qed.

Example Sprint_negative : Sprint (-7) = "-7".
Proof. reflexivity. Qed.

(** C2. For every constructor and every payload passed by the caller,
    nil or a map with any entries, the payload of the returned wrapper
    maps "code" to the decimal string of the wrapper's status code and
    "human_message" to the message argument. *)
Theorem constructor_payload_entries code (build : constructor)
    action message err payload (h : maps) :
  is_constructor code build →
  ∃ ew l,
    (build action message err payload h).1 = Some (Wrapper ew) ∧
    Code ew = code ∧
    Payload ew = Some l ∧
    ((build action message err payload h).2 !!! l) !! "code"
      = Some (Sprint (Code ew)) ∧
    ((build action message err payload h).2 !!! l) !! "human_message"
      = Some message.
Proof.
  intros ->%is_constructor_generic. rewrite NewErrorWrapper_result.
  destruct payload as [l|]; simpl.
  - eexists _, l. split_and!; try reflexivity;
      rewrite lookup_total_insert_eq; by apply lookup_union_Some_l.
  - eexists _, _. split_and!; try reflexivity;
      by rewrite lookup_total_insert_eq.
Qed.

Lemma constructor_payload_entries_witness :
  ∃ ew l,
    (NewNotFoundError "load" "missing" None (Some 1%positive) Samples.store1).1
      = Some (Wrapper ew) ∧
    Code ew = 404 ∧
    Payload ew = Some l ∧
    ((NewNotFoundError "load" "missing" None (Some 1%positive) Samples.store1).2
       !!! l) !! "code" = Some (Sprint (Code ew)) ∧
    ((NewNotFoundError "load" "missing" None (Some 1%positive) Samples.store1).2
       !!! l) !! "human_message" = Some "missing".
Proof.
  apply (constructor_payload_entries 404 NewNotFoundError).
  right. unfold status_constructors. do 4 right. left.
Defined.

(** C3, as the code has it. For every constructor, the entries "code"
    and "human_message" are written into the payload map of the caller
    after the caller's own entries, and the last writer wins: when the
    map passed already has the key "code" or "human_message", the
    payload of the wrapper holds the constructor's value for it (the
    decimal status code, the message argument); every other entry of the
    caller is kept. *)
Theorem constructor_entries_win code (build : constructor)
    action message err (l : loc) (h : maps) :
  is_constructor code build →
  is_Some (h !! l) →
  ∃ ew,
    (build action message err (Some l) h).1 = Some (Wrapper ew) ∧
    Payload ew = Some l ∧
    (build action message err (Some l) h).2 !!! l =
      {[ "code" := Sprint code; "human_message" := message ]} ∪ (h !!! l) ∧
    ((build action message err (Some l) h).2 !!! l) !! "code"
      = Some (Sprint code) ∧
    ((build action message err (Some l) h).2 !!! l) !! "human_message"
      = Some message ∧
    (∀ k, k ≠ "code" → k ≠ "human_message" →
       ((build action message err (Some l) h).2 !!! l) !! k = (h !!! l) !! k).
Proof.
  intros ->%is_constructor_generic Hl. rewrite NewErrorWrapper_result. simpl.
  assert (fresh (dom h) ≠ l) as Hfresh.
  { intros <-. apply elem_of_dom in Hl. by apply is_fresh in Hl. }
  eexists. split_and!; try reflexivity.
  - by rewrite !lookup_total_insert_eq, lookup_total_insert_ne.
  - rewrite lookup_total_insert_eq. by apply lookup_union_Some_l.
  - rewrite lookup_total_insert_eq. by apply lookup_union_Some_l.
  - intros k Hk1 Hk2.
    rewrite lookup_total_insert_eq, lookup_total_insert_ne by done.
    rewrite lookup_union_r; [done|].
    by rewrite lookup_insert_ne, lookup_singleton_ne.
Qed.

Lemma constructor_entries_win_witness :
  ∃ ew,
    (NewNotFoundError "load" "missing" None (Some 1%positive) Samples.store1).1
      = Some (Wrapper ew) ∧
    Payload ew = Some 1%positive ∧
    (NewNotFoundError "load" "missing" None (Some 1%positive) Samples.store1).2
      !!! 1%positive =
      {[ "code" := Sprint 404; "human_message" := "missing" ]}
        ∪ (Samples.store1 !!! 1%positive) ∧
    ((NewNotFoundError "load" "missing" None (Some 1%positive) Samples.store1).2
       !!! 1%positive) !! "code" = Some (Sprint 404) ∧
    ((NewNotFoundError "load" "missing" None (Some 1%positive) Samples.store1).2
       !!! 1%positive) !! "human_message" = Some "missing" ∧
    (∀ k, k ≠ "code" → k ≠ "human_message" →
       ((NewNotFoundError "load" "missing" None (Some 1%positive)
           Samples.store1).2 !!! 1%positive) !! k
       = (Samples.store1 !!! 1%positive) !! k).
Proof.
  apply (constructor_entries_win 404 NewNotFoundError).
  - right. unfold status_constructors. do 4 right. left.
  - vm_compute. eauto.
Defined.

(** The value the caller stored under "code" does not survive
    construction. *)
Lemma caller_code_overwritten_counterexample :
  ¬ (∀ code (build : constructor) action message err (l : loc) (h : maps) v,
       is_constructor code build →
       (h !!! l) !! "code" = Some v →
       ∃ ew l',
         (build action message err (Some l) h).1 = Some (Wrapper ew) ∧
         Payload ew = Some l' ∧
         ((build action message err (Some l) h).2 !!! l') !! "code" = Some v).
Proof.
  intros Hclaim.
  destruct (Hclaim 404 NewNotFoundError "load" "missing" None 1%positive
              Samples.store1 "teapot") as (ew & l' & Hew & Hl' & Hcode).
  - right. unfold status_constructors. do 4 right. left.
  - reflexivity.
  - vm_compute in Hew. injection Hew as <-.
    simpl in Hl'. injection Hl' as <-.
    vm_compute in Hcode. discriminate.
Qed.

Example caller_code_overwritten :
  ((NewNotFoundError "load" "missing" None (Some 1%positive) Samples.store1).2
     !!! 1%positive) !! "code" = Some "404" ∧
  (Samples.store1 !!! 1%positive) !! "code" = Some "teapot".
Proof. split; reflexivity. Qed.

(** C4. Each per-status constructor returns, for all arguments, what the
    generic builder returns with the code fixed to its status, and the
    wrapper returned carries that code. *)
Theorem status_constructors_refine_generic
    action message err payload (h : maps) :
  NewBadRequestError action message err payload h
    = NewErrorWrapper action message 400 err payload h ∧
  NewUnauthorizedError action message err payload h
    = NewErrorWrapper action message 401 err payload h ∧
  NewPaymentRequiredError action message err payload h
    = NewErrorWrapper action message 402 err payload h ∧
  NewForbiddenError action message err payload h
    = NewErrorWrapper action message 403 err payload h ∧
  NewNotFoundError action message err payload h
    = NewErrorWrapper action message 404 err payload h ∧
  NewUnprocessableEntityError action message err payload h
    = NewErrorWrapper action message 422 err payload h ∧
  NewInternalServerError action message err payload h
    = NewErrorWrapper action message 500 err payload h ∧
  NewNotImplementedError action message err payload h
    = NewErrorWrapper action message 501 err payload h ∧
  NewBadGatewayError action message err payload h
    = NewErrorWrapper action message 502 err payload h ∧
  NewServiceUnavailableError action message err payload h
    = NewErrorWrapper action message 503 err payload h ∧
  NewGatewayTimeoutError action message err payload h
    = NewErrorWrapper action message 504 err payload h ∧
  (∀ code, ∃ ew,
     (NewErrorWrapper action message code err payload h).1 = Some (Wrapper ew) ∧
     Code ew = code).
Proof.
  split_and!; try reflexivity.
  intros code. rewrite NewErrorWrapper_result.
  destruct payload; eexists; split; reflexivity.
Qed.

(** ** AddPayloadValue and AddPayloadValues *)

Lemma AddPayloadValue_nil key value (err : ErrorWrapper) (h : maps) :
  Payload err = None →
  AddPayloadValue key value err h =
    (set_Payload err (Some (fresh (dom h))),
     <[fresh (dom h) := {[ key := value ]}]> h).
Proof. unfold AddPayloadValue, alloc. by intros ->. Qed.

Lemma AddPayloadValue_map key value (err : ErrorWrapper) (h : maps) l :
  Payload err = Some l →
  AddPayloadValue key value err h =
    (err, <[l := <[key := value]> (h !!! l)]> h).
Proof. unfold AddPayloadValue. by intros ->. Qed.

(** C7. On a wrapper with a nil payload, [AddPayloadValue] makes a new
    map that holds the one entry [key ↦ value] and stores it in the
    wrapper.  On a wrapper whose payload has [key], it replaces the value
    under [key] and adds no entry.  Called twice with the same key, it
    leaves the second value, in a payload of the size the first call
    left. *)
Theorem AddPayloadValue_spec (key value : string) (err : ErrorWrapper) (h : maps) :
  (Payload err = None →
     ∃ l, Payload (AddPayloadValue key value err h).1 = Some l ∧
          (l ∉ dom h) ∧
          (AddPayloadValue key value err h).2 !!! l = {[ key := value ]} ∧
          size ((AddPayloadValue key value err h).2 !!! l) = 1%nat) ∧
  (∀ l old,
     Payload err = Some l → (h !!! l) !! key = Some old →
     Payload (AddPayloadValue key value err h).1 = Some l ∧
     ((AddPayloadValue key value err h).2 !!! l) !! key = Some value ∧
     size ((AddPayloadValue key value err h).2 !!! l) = size (h !!! l) ∧
     (∀ k, k ≠ key →
        ((AddPayloadValue key value err h).2 !!! l) !! k = (h !!! l) !! k)) ∧
  (∀ value2,
     let first := AddPayloadValue key value err h in
     let second := AddPayloadValue key value2 first.1 first.2 in
     Payload second.1 = Payload first.1 ∧
     entries second.2 (Payload second.1) !! key = Some value2 ∧
     size (entries second.2 (Payload second.1))
       = size (entries first.2 (Payload first.1)) ∧
     (∀ k, k ≠ key →
        entries second.2 (Payload second.1) !! k
        = entries first.2 (Payload first.1) !! k)).
Proof.
  split_and!.
  - intros Hnil. rewrite (AddPayloadValue_nil _ _ _ _ Hnil). simpl.
    eexists. split_and!; [reflexivity | apply is_fresh | |];
      rewrite lookup_total_insert_eq; [done | apply map_size_singleton].
  - intros l old Hl Hold. rewrite (AddPayloadValue_map _ _ _ _ _ Hl). simpl.
    rewrite lookup_total_insert_eq. split_and!.
    + done.
    + apply lookup_insert_eq.
    + apply map_size_insert_Some. eauto.
    + intros k Hk. by apply lookup_insert_ne.
  - intros value2 first second. subst second first.
    destruct (Payload err) as [l|] eqn:Hpay.
    + rewrite (AddPayloadValue_map _ _ _ _ _ Hpay). simpl.
      rewrite (AddPayloadValue_map _ _ _ _ _ Hpay). simpl.
      rewrite Hpay. simpl. rewrite !lookup_total_insert_eq.
      split_and!.
      * done.
      * apply lookup_insert_eq.
      * rewrite insert_insert_eq, !map_size_insert.
        destruct ((h !!! l) !! key); simpl; lia.
      * intros k Hk. by rewrite !lookup_insert_ne.
    + rewrite (AddPayloadValue_nil _ _ _ _ Hpay). unfold AddPayloadValue. simpl.
      rewrite !lookup_total_insert_eq.
      split_and!.
      * done.
      * apply lookup_insert_eq.
      * by rewrite insert_singleton_eq, !map_size_singleton.
      * intros k Hk. by rewrite !lookup_insert_ne.
Qed.

Lemma AddPayloadValue_spec_witness :
  (∃ l, Payload (AddPayloadValue "trace" "xyz" Samples.leaf ∅).1 = Some l ∧
        (l ∉ dom (∅ : maps)) ∧
        (AddPayloadValue "trace" "xyz" Samples.leaf ∅).2 !!! l
          = {[ "trace" := "xyz" ]} ∧
        size ((AddPayloadValue "trace" "xyz" Samples.leaf ∅).2 !!! l) = 1%nat) ∧
  (Payload (AddPayloadValue "trace" "xyz" Samples.with_payload Samples.store1).1
     = Some 1%positive ∧
   ((AddPayloadValue "trace" "xyz" Samples.with_payload Samples.store1).2
      !!! 1%positive) !! "trace" = Some "xyz" ∧
   size ((AddPayloadValue "trace" "xyz" Samples.with_payload Samples.store1).2
           !!! 1%positive) = size (Samples.store1 !!! 1%positive) ∧
   (∀ k, k ≠ "trace" →
      ((AddPayloadValue "trace" "xyz" Samples.with_payload Samples.store1).2
         !!! 1%positive) !! k = (Samples.store1 !!! 1%positive) !! k)).
Proof.
  split.
  - apply (proj1 (AddPayloadValue_spec "trace" "xyz" Samples.leaf ∅)).
    reflexivity.
  - apply (proj1 (proj2 (AddPayloadValue_spec "trace" "xyz"
                           Samples.with_payload Samples.store1))
             1%positive "abc"); reflexivity.
Defined.

(** C10. [AddPayloadValue] and [AddPayloadValues] leave the action, the
    message, the code and the cause of the wrapper as they were. *)
Theorem payload_mutation_frame (err : ErrorWrapper) (h : maps) :
  (∀ key value,
     Action (AddPayloadValue key value err h).1 = Action err ∧
     Message (AddPayloadValue key value err h).1 = Message err ∧
     Code (AddPayloadValue key value err h).1 = Code err ∧
     Err (AddPayloadValue key value err h).1 = Err err) ∧
  (∀ values,
     Action (AddPayloadValues values err h).1 = Action err ∧
     Message (AddPayloadValues values err h).1 = Message err ∧
     Code (AddPayloadValues values err h).1 = Code err ∧
     Err (AddPayloadValues values err h).1 = Err err).
Proof.
  split.
  - intros key value. unfold AddPayloadValue, alloc.
    destruct (Payload err); simpl; done.
  - intros values. unfold AddPayloadValues.
    destruct (Payload err); simpl; done.
Qed.

(** The map itself is shared: a write through one wrapper shows in every
    wrapper that holds the same map, the cause of the receiver included. *)
Example AddPayloadValue_shared_map :
  let inner := Samples.with_payload in
  let outer := {| Action := "serve"; Message := "failed";
                  Payload := Payload inner; Code := 500;
                  Err := Some (Wrapper inner) |} in
  let after := AddPayloadValue "trace" "xyz" outer Samples.store1 in
  Err after.1 = Some (Wrapper inner) ∧
  entries Samples.store1 (Payload inner) !! "trace" = Some "abc" ∧
  entries after.2 (Payload inner) !! "trace" = Some "xyz".
Proof. split_and!; reflexivity. Qed.

(** ** AsJSONResponse *)

(** C9. For every wrapper, and so for the wrapper every constructor
    returns, [AsJSONResponse] gives a map with the two keys "action" and
    "message" and no other, holding the action and the message of the
    wrapper; the payload, the code and the cause have no part in it. *)
Theorem AsJSONResponse_spec (err : ErrorWrapper) :
  dom (AsJSONResponse err) = {[ "action"; "message" ]} ∧
  size (AsJSONResponse err) = 2%nat ∧
  AsJSONResponse err !! "action" = Some (Action err) ∧
  AsJSONResponse err !! "message" = Some (Message err) ∧
  (∀ payload code cause,
     AsJSONResponse {| Action := Action err; Message := Message err;
                       Payload := payload; Code := code; Err := cause |}
     = AsJSONResponse err) ∧
  (∀ code (build : constructor) action message cause payload (h : maps),
     is_constructor code build →
     ∃ ew, (build action message cause payload h).1 = Some (Wrapper ew) ∧
           dom (AsJSONResponse ew) = {[ "action"; "message" ]} ∧
           AsJSONResponse ew !! "action" = Some action ∧
           AsJSONResponse ew !! "message" = Some message).
Proof.
  assert (∀ ew : ErrorWrapper,
            dom (AsJSONResponse ew) = {[ "action"; "message" ]}) as Hdom.
  { intros ew. unfold AsJSONResponse.
    by rewrite dom_insert_L, dom_singleton_L. }
  split_and!.
  - apply Hdom.
  - unfold AsJSONResponse.
    rewrite map_size_insert_None by done. by rewrite map_size_singleton.
  - reflexivity.
  - reflexivity.
  - reflexivity.
  - intros code build action message cause payload h ->%is_constructor_generic.
    rewrite NewErrorWrapper_result.
    destruct payload; eexists; (split; [reflexivity|]);
      (split; [apply Hdom | split; reflexivity]).
Qed.

Lemma AsJSONResponse_spec_witness :
  ∃ ew, (NewForbiddenError "read" "denied" None None ∅).1 = Some (Wrapper ew) ∧
        dom (AsJSONResponse ew) = {[ "action"; "message" ]} ∧
        AsJSONResponse ew !! "action" = Some "read" ∧
        AsJSONResponse ew !! "message" = Some "denied".
Proof.
  apply (proj2 (proj2 (proj2 (proj2 (proj2
           (AsJSONResponse_spec Samples.leaf))))) 403 NewForbiddenError).
  right. unfold status_constructors. do 3 right. left.
Defined.

(** ** Termination of Dig *)

Section WalkFacts.
Context {E : Type} (deref : E → shape E).







End WalkFacts.









Example Dig_steps_outer : Dig_steps deref_dyn 4 Samples.outer = Some Samples.leaf.
Proof. reflexivity. Qed.

Example Dig_steps_outer_short : Dig_steps deref_dyn 3 Samples.outer = None.
Proof. reflexivity. Qed.

(** * Further properties *)

(** ** Merging and sharing of payload maps *)

(** X1. On a wrapper that has a payload map, [AddPayloadValues] leaves
    the struct as it is and merges the incoming entries into that map:
    an incoming entry replaces the one under the same key, every key
    absent from the incoming map keeps what it had, and a nil incoming
    map changes nothing. *)
Theorem AddPayloadValues_merge (values : option loc) (err : ErrorWrapper)
    (h : maps) (l : loc) :
  Payload err = Some l →
  (AddPayloadValues values err h).1 = err ∧
  (AddPayloadValues values err h).2 !!! l = entries h values ∪ (h !!! l) ∧
  (∀ k v, entries h values !! k = Some v →
     ((AddPayloadValues values err h).2 !!! l) !! k = Some v) ∧
  (∀ k, entries h values !! k = None →
     ((AddPayloadValues values err h).2 !!! l) !! k = (h !!! l) !! k) ∧
  (values = None → (AddPayloadValues values err h).2 !!! l = h !!! l).
Proof.
  intros Hl. unfold AddPayloadValues. rewrite Hl. simpl.
  rewrite lookup_total_insert_eq, assign_all_union. split_and!.
  - done.
  - done.
  - intros k v Hk. by apply lookup_union_Some_l.
  - intros k Hk. by apply lookup_union_r.
  - intros ->. simpl. by rewrite (left_id_L ∅ (∪)).
Qed.

Lemma AddPayloadValues_merge_witness :
  (AddPayloadValues (Some 2%positive) Samples.with_payload Stores.two).1
    = Samples.with_payload ∧
  (AddPayloadValues (Some 2%positive) Samples.with_payload Stores.two).2
    !!! 1%positive
    = entries Stores.two (Some 2%positive) ∪ (Stores.two !!! 1%positive) ∧
  (∀ k v, entries Stores.two (Some 2%positive) !! k = Some v →
     ((AddPayloadValues (Some 2%positive) Samples.with_payload Stores.two).2
        !!! 1%positive) !! k = Some v) ∧
  (∀ k, entries Stores.two (Some 2%positive) !! k = None →
     ((AddPayloadValues (Some 2%positive) Samples.with_payload Stores.two).2
        !!! 1%positive) !! k = (Stores.two !!! 1%positive) !! k) ∧
  (Some 2%positive = None →
     (AddPayloadValues (Some 2%positive) Samples.with_payload Stores.two).2
       !!! 1%positive = Stores.two !!! 1%positive).
Proof.
  apply (AddPayloadValues_merge (Some 2%positive) Samples.with_payload
           Stores.two 1%positive).
  reflexivity.
Defined.

Example AddPayloadValues_merge_entries :
  let after :=
    (AddPayloadValues (Some 2%positive) Samples.with_payload Stores.two).2
      !!! 1%positive in
  after !! "trace" = Some "xyz" ∧ after !! "user" = Some "ann" ∧
  after !! "code" = Some "teapot" ∧ size after = 3%nat.
Proof. split_and!; reflexivity. Qed.

(** X2. On a wrapper with a nil payload, [AddPayloadValues] stores the
    map it was given, not a copy, and writes nothing: the store is as
    before, and a value added through the wrapper afterwards is written
    into the caller's own map. *)
Theorem AddPayloadValues_shares_map (lv : loc) (err : ErrorWrapper) (h : maps)
    (key value : string) :
  Payload err = None →
  let stored := AddPayloadValues (Some lv) err h in
  let written := AddPayloadValue key value stored.1 stored.2 in
  Payload stored.1 = Some lv ∧
  stored.2 = h ∧
  Payload written.1 = Some lv ∧
  written.2 !!! lv = <[key := value]> (h !!! lv) ∧
  entries written.2 (Some lv) !! key = Some value.
Proof.
  intros Hnil stored written. subst written stored.
  unfold AddPayloadValues. rewrite Hnil. simpl.
  unfold AddPayloadValue. simpl. rewrite lookup_total_insert_eq.
  split_and!; try done. apply lookup_insert_eq.
Qed.

Lemma AddPayloadValues_shares_map_witness :
  let stored := AddPayloadValues (Some 2%positive) Samples.leaf Stores.two in
  let written := AddPayloadValue "host" "a1" stored.1 stored.2 in
  Payload stored.1 = Some 2%positive ∧
  stored.2 = Stores.two ∧
  Payload written.1 = Some 2%positive ∧
  written.2 !!! 2%positive = <["host" := "a1"]> (Stores.two !!! 2%positive) ∧
  entries written.2 (Some 2%positive) !! "host" = Some "a1".
Proof.
  apply (AddPayloadValues_shares_map 2%positive Samples.leaf Stores.two
           "host" "a1").
  reflexivity.
Defined.

(** X3. Merging the same map a second time changes nothing: the struct
    and the entries of every map are as after the first call. *)
Theorem AddPayloadValues_idempotent (values : option loc) (err : ErrorWrapper)
    (h : maps) :
  let once := AddPayloadValues values err h in
  let twice := AddPayloadValues values once.1 once.2 in
  twice.1 = once.1 ∧ ∀ p, entries twice.2 p = entries once.2 p.
Proof.
  intros once twice. subst twice once. unfold AddPayloadValues.
  destruct (Payload err) as [l|] eqn:Hpay; simpl.
  - rewrite Hpay. split; [done|].
    rewrite !assign_all_union, lookup_total_insert_eq, insert_insert_eq.
    assert (entries (<[l:=entries h values ∪ (h !!! l)]> h) values
              ∪ (entries h values ∪ (h !!! l))
            = entries h values ∪ (h !!! l)) as ->; [|done].
    destruct values as [lv|]; simpl; [|by rewrite (left_id_L ∅ (∪))].
    destruct (decide (l = lv)) as [<-|Hne].
    + rewrite lookup_total_insert_eq. apply (idemp_L (∪)).
    + rewrite lookup_total_insert_ne by done.
      by rewrite (assoc_L (∪)), (idemp_L (∪)).
  - destruct values as [lv|]; simpl; [|done].
    split; [done|]. intros [l'|]; simpl; [|done].
    rewrite assign_all_union, (idemp_L (∪)).
    destruct (decide (lv = l')) as [<-|Hne].
    + by rewrite lookup_total_insert_eq.
    + by rewrite lookup_total_insert_ne.
Qed.

(** X4. Two calls of [AddPayloadValue] with different keys give the same
    struct and the same store in either order. *)
Theorem AddPayloadValue_commute (k1 v1 k2 v2 : string) (err : ErrorWrapper)
    (h : maps) :
  k1 ≠ k2 →
  AddPayloadValue k2 v2 (AddPayloadValue k1 v1 err h).1
                        (AddPayloadValue k1 v1 err h).2
  = AddPayloadValue k1 v1 (AddPayloadValue k2 v2 err h).1
                          (AddPayloadValue k2 v2 err h).2.
Proof.
  intros Hne. destruct (Payload err) as [l|] eqn:Hpay.
  - rewrite !(AddPayloadValue_map _ _ err _ l Hpay). simpl.
    rewrite !lookup_total_insert_eq, !insert_insert_eq.
    by rewrite (insert_insert_ne _ k1 k2).
  - rewrite !(AddPayloadValue_nil _ _ err _ Hpay). simpl.
    unfold AddPayloadValue. simpl.
    rewrite !lookup_total_insert_eq, !insert_insert_eq.
    rewrite <- !insert_empty. by rewrite (insert_insert_ne _ k1 k2).
Qed.

Lemma AddPayloadValue_commute_witness :
  AddPayloadValue "user" "ann"
    (AddPayloadValue "host" "a1" Samples.leaf ∅).1
    (AddPayloadValue "host" "a1" Samples.leaf ∅).2
  = AddPayloadValue "host" "a1"
      (AddPayloadValue "user" "ann" Samples.leaf ∅).1
      (AddPayloadValue "user" "ann" Samples.leaf ∅).2.
Proof.
  apply (AddPayloadValue_commute "host" "a1" "user" "ann" Samples.leaf ∅).
  discriminate.
Defined.

(** X5. Neither method writes to a map other than the payload of the
    receiver: every other map of the store is as before. *)
Theorem payload_mutation_store_frame (err : ErrorWrapper) (h : maps) (l' : loc) :
  Payload err ≠ Some l' →
  is_Some (h !! l') →
  (∀ key value, (AddPayloadValue key value err h).2 !! l' = h !! l') ∧
  (∀ values, (AddPayloadValues values err h).2 !! l' = h !! l').
Proof.
  intros Hother Hl'. split.
  - intros key value. unfold AddPayloadValue, alloc.
    destruct (Payload err) as [l|]; simpl.
    + apply lookup_insert_ne. by intros ->.
    + apply lookup_insert_ne. intros Hfresh.
      apply elem_of_dom in Hl'. rewrite <- Hfresh in Hl'.
      by apply is_fresh in Hl'.
  - intros values. unfold AddPayloadValues.
    destruct (Payload err) as [l|]; simpl; [|done].
    apply lookup_insert_ne. by intros ->.
Qed.

Lemma payload_mutation_store_frame_witness :
  (∀ key value,
     (AddPayloadValue key value Samples.with_payload Stores.two).2 !! 2%positive
     = Stores.two !! 2%positive) ∧
  (∀ values,
     (AddPayloadValues values Samples.with_payload Stores.two).2 !! 2%positive
     = Stores.two !! 2%positive).
Proof.
  apply (payload_mutation_store_frame Samples.with_payload Stores.two 2%positive).
  - discriminate.
  - vm_compute. eauto.
Defined.

(** X6. [AddPayloadValues] with a map of one entry does what
    [AddPayloadValue] does with that entry, on a wrapper that has a
    payload map. *)
Theorem AddPayloadValues_single (key value : string) (lv l : loc)
    (err : ErrorWrapper) (h : maps) :
  Payload err = Some l →
  h !!! lv = {[ key := value ]} →
  AddPayloadValues (Some lv) err h = AddPayloadValue key value err h.
Proof.
  intros Hl Hlv. unfold AddPayloadValues, AddPayloadValue. rewrite Hl. simpl.
  by rewrite assign_all_union, Hlv, <- insert_union_singleton_l.
Qed.

Lemma AddPayloadValues_single_witness :
  AddPayloadValues (Some 2%positive) Samples.with_payload Stores.single
  = AddPayloadValue "user" "ann" Samples.with_payload Stores.single.
Proof.
  apply (AddPayloadValues_single "user" "ann" 2%positive 1%positive
           Samples.with_payload Stores.single); reflexivity.
Defined.

(** ** Dig, Error and DecodeError together *)

(** Induction along the calls of [Dig]: from a wrapper to the wrapper
    [errors.As] finds below it. *)
Lemma Dig_found_ind (P : ErrorWrapper → Prop) :
  (∀ err, (∀ ew, errors_As (Err err) = Some ew → P ew) → P err) →
  ∀ err, P err.
Proof.
  intros Hstep err.
  remember (length (wrappers (chain (Err err)))) as n eqn:Hn.
  revert err Hn. induction (lt_wf n) as [n _ IH]. intros err Hn.
  apply Hstep. intros ew Has.
  apply (IH (length (wrappers (chain (Err ew))))); [|done].
  subst n. rewrite (wrappers_chain_found _ _ Has). simpl. lia.
Qed.

(** X7. The wrapper [Dig] returns has no wrapper below it, so digging
    again returns the same wrapper; and it is one of the wrappers of the
    chain that starts at the receiver. *)
Theorem Dig_idempotent (err : ErrorWrapper) :
  errors_As (Err (Dig err)) = None ∧
  Dig (Dig err) = Dig err ∧
  Dig err ∈ wrappers (chain_of (Wrapper err)).
Proof.
  assert (errors_As (Err (Dig err)) = None) as Hend.
  { induction err as [err IH] using Dig_found_ind.
    rewrite Dig_body. destruct (errors_As (Err err)) as [ew|] eqn:Has.
    - by apply IH.
    - done. }
  split_and!.
  - done.
  - by rewrite (Dig_body (Dig err)), Hend.
  - apply last_Some_elem_of, Dig_last.
Qed.

(** X8. [Error] follows the causes through wrappers only: it returns the
    text of the first foreign error of the cause chain, and when the
    chain holds no foreign error, the message of the innermost wrapper,
    the one [Dig] returns. *)
Theorem Error_first_foreign (err : ErrorWrapper) :
  Error err =
    Some (default (Message (Dig err))
            (head (omap foreign_text (chain (Err err))))).
Proof.
  cut (∀ e ew, e = Wrapper ew →
         Error ew = Some (default (Message (Dig ew))
                            (head (omap foreign_text (chain (Err ew)))))).
  { intros Hall. by apply (Hall (Wrapper err)). }
  clear err. intros e. induction e as [e IH] using dyn_cause_ind.
  intros ew ->. unfold Error. rewrite Dig_body.
  destruct (Err ew) as [[text unwrap|inner]|] eqn:Hcause.
  - done.
  - simpl errors_As.
    change (call_Error (Some (Wrapper inner))) with (Error inner).
    rewrite (IH (Wrapper inner) Hcause inner eq_refl).
    unfold chain at 2. by rewrite (chain_of_unfold (Wrapper inner)).
  - done.
Qed.

Example Error_over_annotated :
  Error Samples.over_annotated = Some "context: not found" ∧
  Message (Dig Samples.over_annotated) = "not found".
Proof. split; reflexivity. Qed.



(** X11. For an error with no wrapper in its chain, the fallback of
    [DecodeError] renders as that error does, carries code 500, and its
    response map is action "generic" with the error's text as message. *)
Theorem DecodeError_fallback_response (e : dyn) :
  wrappers (chain_of e) = [] →
  ∃ w text,
    DecodeError (Some e) = Some w ∧
    call_Error (Some e) = Some text ∧
    Error w = Some text ∧
    Code w = 500 ∧
    Unwrap w = Some e ∧
    AsJSONResponse w = {[ "action" := "generic"; "message" := text ]}.
Proof.
  intros Hnone. unfold DecodeError. rewrite errors_As_head. simpl chain.
  rewrite Hnone. simpl.
  destruct (dyn_Error_total e) as [text Htext]. rewrite Htext.
  eexists _, text. split_and!; try reflexivity.
  unfold Error. simpl. exact Htext.
Qed.

Lemma DecodeError_fallback_response_witness :
  ∃ w text,
    DecodeError (Some Samples.plain) = Some w ∧
    call_Error (Some Samples.plain) = Some text ∧
    Error w = Some text ∧
    Code w = 500 ∧
    Unwrap w = Some Samples.plain ∧
    AsJSONResponse w = {[ "action" := "generic"; "message" := text ]}.
Proof.
  apply (DecodeError_fallback_response Samples.plain). reflexivity.
Defined.

(** ** Constructors with the other operations *)

(** X12. Decoding what a constructor returns gives back the wrapper that
    was built, with the action, message, code and cause passed, also
    when the cause is itself a wrapper: the new wrapper is the outermost
    one of its chain. *)
Theorem DecodeError_constructor code (build : constructor)
    action message cause payload (h : maps) :
  is_constructor code build →
  ∃ ew,
    (build action message cause payload h).1 = Some (Wrapper ew) ∧
    DecodeError (build action message cause payload h).1 = Some ew ∧
    Action ew = action ∧
    Message ew = message ∧
    Code ew = code ∧
    Unwrap ew = cause.
Proof.
  intros ->%is_constructor_generic. rewrite NewErrorWrapper_result.
  destruct payload; eexists; split_and!; reflexivity.
Qed.

Lemma DecodeError_constructor_witness :
  ∃ ew,
    (NewBadGatewayError "fetch" "upstream failed"
       (Some (Wrapper Samples.leaf)) None ∅).1 = Some (Wrapper ew) ∧
    DecodeError (NewBadGatewayError "fetch" "upstream failed"
                   (Some (Wrapper Samples.leaf)) None ∅).1 = Some ew ∧
    Action ew = "fetch" ∧
    Message ew = "upstream failed" ∧
    Code ew = 502 ∧
    Unwrap ew = Some (Wrapper Samples.leaf).
Proof.
  apply (DecodeError_constructor 502 NewBadGatewayError).
  right. unfold status_constructors. do 8 right. left.
Defined.

(** X13. Called with a nil payload, a constructor gives the wrapper a
    new map that holds the entries "code" and "human_message" and no
    other, and leaves every map of the store as it was. *)
Theorem constructor_nil_payload code (build : constructor)
    action message cause (h : maps) :
  is_constructor code build →
  ∃ ew l,
    (build action message cause None h).1 = Some (Wrapper ew) ∧
    Payload ew = Some l ∧
    (l ∉ dom h) ∧
    (build action message cause None h).2 !!! l
      = {[ "code" := Sprint code; "human_message" := message ]} ∧
    dom ((build action message cause None h).2 !!! l)
      = {[ "code"; "human_message" ]} ∧
    size ((build action message cause None h).2 !!! l) = 2%nat ∧
    (∀ l', is_Some (h !! l') →
       (build action message cause None h).2 !! l' = h !! l').
Proof.
  intros ->%is_constructor_generic. rewrite NewErrorWrapper_result. simpl.
  eexists _, _. split_and!; try reflexivity.
  - apply is_fresh.
  - by rewrite lookup_total_insert_eq.
  - by rewrite lookup_total_insert_eq, dom_insert_L, dom_singleton_L.
  - rewrite lookup_total_insert_eq, map_size_insert_None by done.
    by rewrite map_size_singleton.
  - intros l' Hl'. apply lookup_insert_ne. intros Hfresh.
    apply elem_of_dom in Hl'. rewrite <- Hfresh in Hl'.
    by apply is_fresh in Hl'.
Qed.

Lemma constructor_nil_payload_witness :
  ∃ ew l,
    (NewUnauthorizedError "login" "no token" None None Stores.two).1
      = Some (Wrapper ew) ∧
    Payload ew = Some l ∧
    (l ∉ dom Stores.two) ∧
    (NewUnauthorizedError "login" "no token" None None Stores.two).2 !!! l
      = {[ "code" := Sprint 401; "human_message" := "no token" ]} ∧
    dom ((NewUnauthorizedError "login" "no token" None None Stores.two).2 !!! l)
      = {[ "code"; "human_message" ]} ∧
    size ((NewUnauthorizedError "login" "no token" None None Stores.two).2 !!! l)
      = 2%nat ∧
    (∀ l', is_Some (Stores.two !! l') →
       (NewUnauthorizedError "login" "no token" None None Stores.two).2 !! l'
       = Stores.two !! l').
Proof.
  apply (constructor_nil_payload 401 NewUnauthorizedError).
  right. unfold status_constructors. do 1 right. left.
Defined.

(** X14. A constructor keeps the map it is given: two wrappers built from
    the same map share it, and after the second construction the payload
    of the first wrapper shows the code and message of the second, while
    its own code field is unchanged. *)
Theorem constructors_share_payload
    code1 (build1 : constructor) action1 message1 cause1
    code2 (build2 : constructor) action2 message2 cause2
    (l : loc) (h : maps) :
  is_constructor code1 build1 →
  is_constructor code2 build2 →
  let first := build1 action1 message1 cause1 (Some l) h in
  let second := build2 action2 message2 cause2 (Some l) first.2 in
  ∃ ew1 ew2,
    first.1 = Some (Wrapper ew1) ∧
    second.1 = Some (Wrapper ew2) ∧
    Payload ew1 = Some l ∧
    Payload ew2 = Some l ∧
    Code ew1 = code1 ∧
    entries second.2 (Payload ew1) !! "code" = Some (Sprint code2) ∧
    entries second.2 (Payload ew1) !! "human_message" = Some message2.
Proof.
  intros ->%is_constructor_generic ->%is_constructor_generic first second.
  subst second first. rewrite !NewErrorWrapper_result. simpl.
  eexists _, _. split_and!; try reflexivity; simpl;
    rewrite lookup_total_insert_eq; by apply lookup_union_Some_l.
Qed.

Lemma constructors_share_payload_witness :
  let first :=
    NewBadRequestError "parse" "bad body" None (Some 1%positive) Stores.two in
  let second :=
    NewNotFoundError "load" "missing" None (Some 1%positive) first.2 in
  ∃ ew1 ew2,
    first.1 = Some (Wrapper ew1) ∧
    second.1 = Some (Wrapper ew2) ∧
    Payload ew1 = Some 1%positive ∧
    Payload ew2 = Some 1%positive ∧
    Code ew1 = 400 ∧
    entries second.2 (Payload ew1) !! "code" = Some (Sprint 404) ∧
    entries second.2 (Payload ew1) !! "human_message" = Some "missing".
Proof.
  apply (constructors_share_payload 400 NewBadRequestError "parse" "bad body"
           None 404 NewNotFoundError "load" "missing" None 1%positive
           Stores.two).
  - right. unfold status_constructors. left.
  - right. unfold status_constructors. do 4 right. left.
Defined.

(** X15. On the wrapper a constructor built, adding a value under a key
    other than "code" and "human_message" keeps both entries and stores
    the value; adding a value under "code" replaces the entry, and the
    code field of the wrapper stays, so the two may differ from then on. *)
Theorem constructor_then_AddPayloadValue code (build : constructor)
    action message cause payload (h : maps) (key value : string) :
  is_constructor code build →
  ∃ ew,
    (build action message cause payload h).1 = Some (Wrapper ew) ∧
    let after := AddPayloadValue key value ew
                   (build action message cause payload h).2 in
    Code after.1 = code ∧
    entries after.2 (Payload after.1) !! key = Some value ∧
    (key ≠ "code" →
       entries after.2 (Payload after.1) !! "code" = Some (Sprint code)) ∧
    (key ≠ "human_message" →
       entries after.2 (Payload after.1) !! "human_message" = Some message).
Proof.
  intros ->%is_constructor_generic. rewrite NewErrorWrapper_result.
  destruct payload as [l|]; simpl; eexists; (split; [reflexivity|]);
    unfold AddPayloadValue; simpl; rewrite !lookup_total_insert_eq;
    split_and!; try done.
  - apply lookup_insert_eq.
  - intros Hk. rewrite lookup_insert_ne by done. by apply lookup_union_Some_l.
  - intros Hk. rewrite lookup_insert_ne by done. by apply lookup_union_Some_l.
  - apply lookup_insert_eq.
  - intros Hk. by rewrite lookup_insert_ne.
  - intros Hk. by rewrite lookup_insert_ne.
Qed.

Lemma constructor_then_AddPayloadValue_witness :
  ∃ ew,
    (NewForbiddenError "read" "denied" None None ∅).1 = Some (Wrapper ew) ∧
    let after := AddPayloadValue "trace" "abc" ew
                   (NewForbiddenError "read" "denied" None None ∅).2 in
    Code after.1 = 403 ∧
    entries after.2 (Payload after.1) !! "trace" = Some "abc" ∧
    ("trace" ≠ "code" →
       entries after.2 (Payload after.1) !! "code" = Some (Sprint 403)) ∧
    ("trace" ≠ "human_message" →
       entries after.2 (Payload after.1) !! "human_message" = Some "denied").
Proof.
  apply (constructor_then_AddPayloadValue 403 NewForbiddenError).
  right. unfold status_constructors. do 3 right. left.
Defined.

Example constructor_code_entry_replaced :
  let built := NewForbiddenError "read" "denied" None None ∅ in
  ∃ ew, built.1 = Some (Wrapper ew) ∧
        Code (AddPayloadValue "code" "999" ew built.2).1 = 403 ∧
        entries (AddPayloadValue "code" "999" ew built.2).2 (Payload ew)
          !! "code" = Some "999".
Proof. eexists. split_and!; reflexivity. Qed.

(** ** Causes whose methods panic *)

(** Induction along the chain of a value. *)
Lemma held_chain_ind (P : Pointers.held → Prop) :
  (∀ rendered unwrapped,
     (∀ c, unwrapped = Some (Some c) → P c) →
     P (Pointers.Other rendered unwrapped)) →
  (∀ ew, (∀ c, Err ew = Some c → P c) → P (Pointers.Wrapped ew)) →
  ∀ e, P e.
Proof.
  intros Hother Hwrapped. fix IH 1. intros e.
  destruct e as [rendered [[c|]|]|[a m p cd [c|]]].
  - apply Hother. intros c' [= <-]. apply IH.
  - apply Hother. intros c' [=].
  - apply Hother. intros c' [=].
  - apply Hwrapped. simpl. intros c' [= <-]. apply IH.
  - apply Hwrapped. simpl. intros c' [=].
Qed.

Lemma held_chain_of_wrapped ew :
  Pointers.chain_of (Pointers.Wrapped ew)
  = Pointers.Wrapped ew :: Pointers.chain (Err ew).
Proof. simpl. by destruct (Err ew). Qed.

(** The first value of the chain that is not a wrapper decides what
    [Error] does. *)
Lemma held_dyn_Error_first e r :
  head (omap Pointers.rendered_of (Pointers.chain_of e)) = Some r →
  Pointers.dyn_Error e = r.
Proof.
  induction e as [rendered unwrapped _|ew IH] using held_chain_ind.
  - simpl. by intros [= <-].
  - rewrite held_chain_of_wrapped. simpl.
    destruct (Err ew) as [c|] eqn:Hc; simpl; [|done].
    intros Hhead. by apply (IH c).
Qed.

(** A chain of wrappers only is rendered by its last wrapper. *)
Lemma held_dyn_Error_wrappers e :
  head (omap Pointers.rendered_of (Pointers.chain_of e)) = None →
  is_Some (Pointers.dyn_Error e).
Proof.
  induction e as [rendered unwrapped _|ew IH] using held_chain_ind.
  - simpl. discriminate.
  - rewrite held_chain_of_wrapped. simpl.
    destruct (Err ew) as [c|] eqn:Hc; simpl; [|eauto].
    intros Hhead. by apply (IH c).
Qed.

(** On the values of the tree model the two renderings agree. *)
Lemma lift_dyn_Error e : Pointers.dyn_Error (Pointers.lift e) = dyn_Error e.
Proof.
  induction e as [e IH] using dyn_cause_ind.
  destruct e as [text unwrap|[a m p cd [c|]]]; simpl; [done| |done].
  by apply (IH c).
Qed.

Lemma lift_wrapper_Error (w : ErrorWrapper) :
  Pointers.Error (Pointers.lift_wrapper w) = Error w.
Proof.
  unfold Pointers.Error, Error, Pointers.lift_wrapper. simpl.
  destruct (Err w) as [c|]; simpl; [apply lift_dyn_Error | done].
Qed.

(** C6, as the code has it. With no cause, [Error] returns the message
    of the wrapper: the nil test comes before the call, so an absent
    cause never makes it panic.  With a cause, it returns what the
    [Error] method of the cause returns, and panics when that call
    panics.  Wrappers pass the call on to their own cause, so the first
    value of the cause chain that is not a wrapper decides: [Error]
    panics exactly when the [Error] method of that value panics, as for
    a nil pointer to a wrapper held in the interface, and returns a
    string when the chain holds wrappers only.  On the wrappers of the
    tree model, whose values all render, it always returns. *)
Theorem Error_guards_nil_cause (err : ErrorWrapperOf Pointers.held) :
  (Err err = None → Pointers.Error err = Some (Message err)) ∧
  (∀ c, Err err = Some c → Pointers.Error err = Pointers.dyn_Error c) ∧
  (∀ r, head (omap Pointers.rendered_of (Pointers.chain (Err err))) = Some r →
        Pointers.Error err = r) ∧
  (head (omap Pointers.rendered_of (Pointers.chain (Err err))) = None →
     is_Some (Pointers.Error err)) ∧
  (Pointers.Error err = None ↔
     head (omap Pointers.rendered_of (Pointers.chain (Err err))) = Some None) ∧
  (∀ w : ErrorWrapper,
     err = Pointers.lift_wrapper w →
     Pointers.Error err = Error w ∧ is_Some (Error w)).
Proof.
  assert (∀ r, head (omap Pointers.rendered_of (Pointers.chain (Err err)))
                 = Some r → Pointers.Error err = r) as Hfirst.
  { intros r. unfold Pointers.Error.
    destruct (Err err) as [c|]; simpl; [apply held_dyn_Error_first | done]. }
  assert (head (omap Pointers.rendered_of (Pointers.chain (Err err))) = None →
          is_Some (Pointers.Error err)) as Hwrappers.
  { unfold Pointers.Error.
    destruct (Err err) as [c|]; simpl; [apply held_dyn_Error_wrappers | eauto]. }
  split_and!.
  - unfold Pointers.Error. by intros ->.
  - unfold Pointers.Error. by intros c ->.
  - exact Hfirst.
  - exact Hwrappers.
  - split.
    + intros Hpanic.
      destruct (head (omap Pointers.rendered_of (Pointers.chain (Err err))))
        as [r|] eqn:Hhead.
      * by rewrite <- (Hfirst r eq_refl), Hpanic.
      * destruct (Hwrappers eq_refl) as [text Htext]. congruence.
    + apply Hfirst.
  - intros w ->. rewrite lift_wrapper_Error. split; [done|].
    unfold Error. destruct (Err w) as [c|]; simpl; [apply dyn_Error_total | eauto].
Qed.

Lemma Error_guards_nil_cause_witness :
  Pointers.Error (Pointers.lift_wrapper Samples.leaf) = Some "not found" ∧
  Pointers.Error Pointers.over_nil_pointer
    = Pointers.dyn_Error Pointers.nil_wrapper_pointer ∧
  Pointers.Error Pointers.over_over_nil_pointer = None ∧
  is_Some (Pointers.Error (Pointers.lift_wrapper Samples.outer)) ∧
  (Pointers.Error (Pointers.lift_wrapper Samples.over_plain)
     = Error Samples.over_plain ∧
   is_Some (Error Samples.over_plain)).
Proof.
  split_and!.
  - apply (proj1 (Error_guards_nil_cause (Pointers.lift_wrapper Samples.leaf))).
    reflexivity.
  - apply (proj1 (proj2 (Error_guards_nil_cause Pointers.over_nil_pointer))).
    reflexivity.
  - apply (proj1 (proj2 (proj2
             (Error_guards_nil_cause Pointers.over_over_nil_pointer)))).
    reflexivity.
  - apply (proj1 (proj2 (proj2 (proj2
             (Error_guards_nil_cause (Pointers.lift_wrapper Samples.outer)))))).
    reflexivity.
  - apply (proj2 (proj2 (proj2 (proj2 (proj2
             (Error_guards_nil_cause
                (Pointers.lift_wrapper Samples.over_plain))))))
             Samples.over_plain).
    reflexivity.
  - apply (proj2 (proj2 (proj2 (proj2 (proj2
             (Error_guards_nil_cause
                (Pointers.lift_wrapper Samples.over_plain))))))
             Samples.over_plain).
    reflexivity.
Defined.

(** A wrapper whose cause is a nil pointer to a wrapper: the interface is
    not nil, the test passes, and the call on the cause panics. *)
Lemma Error_nil_pointer_counterexample :
  ¬ (∀ err : ErrorWrapperOf Pointers.held, is_Some (Pointers.Error err)).
Proof.
  intros Hclaim. destruct (Hclaim Pointers.over_nil_pointer) as [text Htext].
  discriminate.
Qed.

Example Error_over_nil_pointer :
  Err Pointers.over_nil_pointer ≠ None ∧
  Pointers.Error Pointers.over_nil_pointer = None.
Proof. split; [discriminate | reflexivity]. Qed.

(** What the loop of [errors.As] meets on the chain, by its outcome. *)
Lemma held_errors_As_from_cases e :
  match Pointers.errors_As_from e with
  | None =>
      Pointers.wrappers (Pointers.chain_of e) = [] ∧
      ∃ x, last (Pointers.chain_of e) = Some x ∧ Pointers.Unwrap_panics x = true
  | Some None =>
      Pointers.wrappers (Pointers.chain_of e) = [] ∧
      ∃ x, last (Pointers.chain_of e) = Some x ∧ Pointers.Unwrap_panics x = false
  | Some (Some ew) => head (Pointers.wrappers (Pointers.chain_of e)) = Some ew
  end.
Proof.
  induction e as [rendered unwrapped IH|ew _] using held_chain_ind.
  - destruct unwrapped as [[c|]|]; simpl.
    + specialize (IH c eq_refl).
      assert (∀ x, last (Pointers.chain_of c) = Some x →
                   last (Pointers.Other rendered (Some (Some c))
                           :: Pointers.chain_of c) = Some x) as Hlast.
      { intros x Hx. destruct c; simpl in *; exact Hx. }
      destruct (Pointers.errors_As_from c) as [[ew|]|].
      * exact IH.
      * destruct IH as (Hw & x & Hx & Hp). split; [done|].
        exists x. split; [by apply Hlast | done].
      * destruct IH as (Hw & x & Hx & Hp). split; [done|].
        exists x. split; [by apply Hlast | done].
    + split; [done|]. by eexists.
    + split; [done|]. by eexists.
  - rewrite held_chain_of_wrapped. reflexivity.
Qed.

(** On the values of the tree model [errors.As] finds the same wrapper. *)
Lemma lift_errors_As_from e :
  Pointers.errors_As_from (Pointers.lift e)
  = Some (Pointers.lift_wrapper <$> errors_As_from e).
Proof.
  induction e as [e IH] using dyn_cause_ind.
  destruct e as [text [c|]|ew]; simpl; [|done..].
  by apply (IH c).
Qed.

(** X9. [DecodeError] panics on the nil interface, and on a non-nil error
    exactly when no wrapper occurs in its chain and either the walk of
    [errors.As] ends at a value whose [Unwrap] panics or the [Error]
    method of the error itself panics.  So it panics on a nil pointer to
    a wrapper, alone or behind foreign errors, and on the values of the
    tree model it returns the wrapper it returns there. *)
Theorem DecodeError_panic_cases (i : option Pointers.held) :
  (Pointers.DecodeError i = None ↔
     i = None ∨
     ∃ e, i = Some e ∧
          Pointers.wrappers (Pointers.chain_of e) = [] ∧
          ((∃ x, last (Pointers.chain_of e) = Some x ∧
                 Pointers.Unwrap_panics x = true) ∨
           Pointers.dyn_Error e = None)) ∧
  (∀ e : dyn,
     i = Some (Pointers.lift e) →
     Pointers.DecodeError i = Pointers.lift_wrapper <$> DecodeError (Some e) ∧
     is_Some (DecodeError (Some e))).
Proof.
  split.
  - destruct i as [e|]; [|split; [by left | done]].
    unfold Pointers.DecodeError. simpl.
    pose proof (held_errors_As_from_cases e) as Hcases.
    destruct (Pointers.errors_As_from e) as [[ew|]|]; split.
    + discriminate.
    + intros [[=]|(e' & [= <-] & Hw & _)]. by rewrite Hw in Hcases.
    + destruct Hcases as [Hw _]. intros Hpanic. right.
      exists e. split_and!; [done..|]. right.
      by destruct (Pointers.dyn_Error e).
    + intros [[=]|(e' & [= <-] & _ & [(x & Hx & Hp)|Hrender])].
      * destruct Hcases as (_ & y & Hy & Hq). congruence.
      * by rewrite Hrender.
    + intros _. right. exists e. destruct Hcases as [Hw Hlast].
      split_and!; [done..|]. by left.
    + done.
  - intros e ->. unfold Pointers.DecodeError, DecodeError. simpl.
    rewrite lift_errors_As_from, lift_dyn_Error.
    destruct (errors_As_from e) as [ew|]; simpl; [eauto|].
    destruct (dyn_Error_total e) as [text ->]. eauto.
Qed.

Lemma DecodeError_panic_cases_witness :
  Pointers.DecodeError (Some Pointers.annotated_nil_pointer) = None ∧
  (Pointers.DecodeError (Some (Pointers.lift Samples.annotated))
     = Pointers.lift_wrapper <$> DecodeError (Some Samples.annotated) ∧
   is_Some (DecodeError (Some Samples.annotated))).
Proof.
  split.
  - apply (proj1 (DecodeError_panic_cases (Some Pointers.annotated_nil_pointer))).
    right. exists Pointers.annotated_nil_pointer.
    split_and!; [reflexivity..|]. left.
    exists Pointers.nil_wrapper_pointer. split; reflexivity.
  - apply (proj2 (DecodeError_panic_cases
                    (Some (Pointers.lift Samples.annotated)))).
    reflexivity.
Defined.

Example DecodeError_nil_pointer :
  Pointers.DecodeError (Some Pointers.nil_wrapper_pointer) = None ∧
  Pointers.DecodeError None = None ∧
  Pointers.DecodeError (Some (Pointers.Wrapped Pointers.over_nil_pointer))
    = Some Pointers.over_nil_pointer.
Proof. split_and!; reflexivity. Qed.
